(** * Churn analysis pipeline: a shallow embedding of [app.py] and
    [churn_analysis.py].

    A DataFrame row of [European_Bank.csv] is a [customer]; a DataFrame is a
    list of rows in file order.  Integer columns ([Age], [IsActiveMember],
    [Exited]) are [Z]; the decimal [Balance] column is [Q]; categorical
    columns are strings.  A cell that pandas fills with NaN is [None]. *)

From Stdlib Require Import String List ZArith QArith Qabs Lia Permutation.
Import ListNotations.
Open Scope nat_scope.
Open Scope string_scope.

Record customer := mkCustomer {
  Geography : string;
  Gender : string;
  Age : Z;
  Balance : Q;
  IsActiveMember : Z;
  Exited : Z
}.

(** Python's [<] on numbers, as a boolean. *)
Definition Qlt_bool (x y : Q) : bool := negb (Qle_bool y x).

(** ** Segments ([create_segments], app.py lines 53-77) *)

(** [age_group], app.py lines 57-61 (same as [create_age_group],
    churn_analysis.py lines 32-37). *)
Definition age_group (age : Z) : string :=
  if (age <? 30)%Z then "Young (<30)"
  else if (age <? 45)%Z then "Middle Age (30-45)"
  else if (age <? 60)%Z then "Senior (45-60)"
  else "Elderly (60+)".

(** [balance_segment], app.py lines 66-70 (same as [create_balance_segment],
    churn_analysis.py lines 41-46). *)
Definition balance_segment (balance : Q) : string :=
  if Qeq_bool balance 0 then "Zero Balance"
  else if Qlt_bool balance 50000 then "Low (<50k)"
  else if Qlt_bool balance 100000 then "Medium (50k-100k)"
  else "High (100k+)".

(** [df['IsActiveMember'].map({1: 'Active', 0: 'Inactive'})], app.py line 75:
    a value that is not a key of the dict maps to NaN. *)
Definition activity_status (v : Z) : option string :=
  if (v =? 1)%Z then Some "Active"
  else if (v =? 0)%Z then Some "Inactive"
  else None.

(** Position of an age-group label in the order of the branches. *)
Definition age_rank (l : string) : nat :=
  if String.eqb l "Young (<30)" then 0
  else if String.eqb l "Middle Age (30-45)" then 1
  else if String.eqb l "Senior (45-60)" then 2
  else 3.

(** ** Grouping ([calc_churn], app.py lines 82-87) *)

(** The columns [calc_churn] is called with (app.py lines 176, 213, 242,
    274). *)
Inductive segment_col := ByGeography | ByAgeGroup | ByGender | ByBalanceSegment.

Definition col_value (c : segment_col) (r : customer) : option string :=
  match c with
  | ByGeography => Some (Geography r)
  | ByAgeGroup => Some (age_group (Age r))
  | ByGender => Some (Gender r)
  | ByBalanceSegment => Some (balance_segment (Balance r))
  end.

(** The [ActivityStatus] column (app.py line 75, churn_analysis.py line 50),
    NaN where [activity_status] gives no label; churn_analysis.py line 85
    groups by it. *)
Definition activity_col (r : customer) : option string :=
  activity_status (IsActiveMember r).

(** [x == k] on a cell: NaN equals nothing. *)
Definition cell_eqb (x : option string) (k : string) : bool :=
  match x with Some s => String.eqb s k | None => false end.

Fixpoint insert_key (k : string) (l : list string) : list string :=
  match l with
  | [] => [k]
  | h :: t => if String.leb k h then k :: h :: t else h :: insert_key k t
  end.

Fixpoint sort_keys (l : list string) : list string :=
  match l with
  | [] => []
  | h :: t => insert_key h (sort_keys t)
  end.

(** The non-NaN values of the key column. *)
Definition present_keys (key : customer -> option string) (rs : list customer)
  : list string :=
  flat_map (fun r => match key r with Some k => [k] | None => [] end) rs.

(** [groupby] keys: the distinct non-NaN values, sorted ([sort=True],
    [dropna=True]). *)
Definition group_keys (key : customer -> option string) (rs : list customer)
  : list string :=
  sort_keys (nodup string_dec (present_keys key rs)).

Definition group_of (key : customer -> option string) (rs : list customer)
  (k : string) : list customer :=
  filter (fun r => cell_eqb (key r) k) rs.

Definition sum_exited (g : list customer) : Z :=
  fold_right (fun r acc => (Exited r + acc)%Z) 0%Z g.

(** One output row of [calc_churn]: the group key, [count], [sum] and
    [mean * 100] of [Exited]. *)
Record seg_agg := mkSegAgg {
  seg : string;
  Total : nat;
  Churned : Z;
  ChurnRate : Q
}.

Definition agg_group (k : string) (g : list customer) : seg_agg :=
  mkSegAgg k (length g) (sum_exited g)
    (inject_Z (sum_exited g) / inject_Z (Z.of_nat (length g)) * 100)%Q.

Definition calc_churn (key : customer -> option string) (rs : list customer)
  : list seg_agg :=
  map (fun k => agg_group k (group_of key rs k)) (group_keys key rs).

(** A well-typed row: [Exited] is 0 or 1. *)
Definition wt (r : customer) : Prop := (Exited r = 0 \/ Exited r = 1)%Z.

(** ** Filters (app.py lines 117-129) *)

(** Each selectbox value other than ['All'] keeps the rows whose column
    equals it; NaN equals nothing. *)
Definition apply_filters (selected_country selected_age selected_gender
  selected_activity : string) (df : list customer) : list customer :=
  let filtered_df := df in
  let filtered_df := if negb (String.eqb selected_country "All")
    then filter (fun r => String.eqb (Geography r) selected_country) filtered_df
    else filtered_df in
  let filtered_df := if negb (String.eqb selected_age "All")
    then filter (fun r => String.eqb (age_group (Age r)) selected_age) filtered_df
    else filtered_df in
  let filtered_df := if negb (String.eqb selected_gender "All")
    then filter (fun r => String.eqb (Gender r) selected_gender) filtered_df
    else filtered_df in
  let filtered_df := if negb (String.eqb selected_activity "All")
    then filter (fun r => cell_eqb (activity_col r) selected_activity) filtered_df
    else filtered_df in
  filtered_df.

(** ** Rates and the high-value tab *)

(** [(x['Exited'].sum() / len(x) * 100) if len(x) > 0 else 0], app.py lines
    141, 315 and 316. *)
Definition guarded_rate (g : list customer) : Q :=
  if (0 <? length g)%nat
  then (inject_Z (sum_exited g) / inject_Z (Z.of_nat (length g)) * 100)%Q
  else 0%Q.

Definition sum_balance (g : list customer) : Q :=
  fold_right (fun r acc => (Balance r + acc)%Q) 0%Q g.

Record hv_report := mkHvReport {
  hv_rows : list customer;
  reg_rows : list customer;
  hv_churn : Q;
  reg_churn : Q;
  at_risk : Q
}.

(** The high-value tab, app.py lines 312-328, with the threshold that the
    source writes as the literal [100000] as a parameter. *)
Definition high_value_split (threshold : Q) (filtered_df : list customer)
  : hv_report :=
  let hv := filter (fun r => Qlt_bool threshold (Balance r)) filtered_df in
  let reg := filter (fun r => Qle_bool (Balance r) threshold) filtered_df in
  mkHvReport hv reg (guarded_rate hv) (guarded_rate reg)
    (sum_balance (filter (fun r => (Exited r =? 1)%Z) hv)).

Definition app_high_value : list customer -> hv_report :=
  high_value_split 100000.

(** Result of a numpy scalar division: a number, nan, or an infinity. *)
Inductive num := Fin (q : Q) | NaN | Inf.

(** [x / n] for an [int64] scalar [x] and an integer [n]: numpy gives nan
    for [0 / 0] and an infinity for [x / 0] with [x <> 0] (with a
    RuntimeWarning, no exception). *)
Definition np_true_div (x n : Z) : num :=
  if (n =? 0)%Z then (if (x =? 0)%Z then NaN else Inf)
  else Fin (inject_Z x / inject_Z n).

Definition num_mul (v : num) (q : Q) : num :=
  match v with Fin a => Fin (a * q) | NaN => NaN | Inf => Inf end.

(** The exceptions churn_analysis.py can raise after loading. *)
Inductive script_error := ZeroDivisionError | KeyError (k : string).

(** [hv_churn], churn_analysis.py lines 93-94: no guard on [len(hv)].  A
    header-only CSV gives object-dtype columns, whose empty [sum()] is the
    Python int 0, so [0 / 0] raises ZeroDivisionError; a non-empty frame has
    an int64 [Exited] column, so an empty [hv] gives numpy's [0 / 0]. *)
Definition script_hv_churn (df : list customer) : script_error + num :=
  match df with
  | [] => inl ZeroDivisionError
  | _ :: _ =>
      let hv := filter (fun r => Qlt_bool 100000 (Balance r)) df in
      inr (num_mul (np_true_div (sum_exited hv) (Z.of_nat (length hv))) 100)
  end.

(** [churn_rate], churn_analysis.py lines 55-57: [total = len(df)] is 0 only
    on a header-only CSV, where [0 / 0] on Python ints raises. *)
Definition script_overall (df : list customer) : script_error + Q :=
  match df with
  | [] => inl ZeroDivisionError
  | _ :: _ => inr (inject_Z (sum_exited df) / inject_Z (Z.of_nat (length df)) * 100)%Q
  end.

(** ** Loading ([load_data], app.py lines 38-48) *)

(** A frame read by [pd.read_csv], column by column. *)
Definition table := list (string * list string).

(** The exception [pd.read_csv] raises on a missing or unparsable file. *)
Inductive read_error := ReadError.

Definition has_column (c : string) (df : table) : bool :=
  existsb (fun col => String.eqb (fst col) c) df.

Definition drop_column (c : string) (df : table) : table :=
  filter (fun col => negb (String.eqb (fst col) c)) df.

(** [src] is what [pd.read_csv('European_Bank.csv')] parses, [None] when
    the file is missing or unreadable. *)
Definition load_data (src : option table) : read_error + table :=
  match src with
  | None => inl ReadError
  | Some df =>
      let df := if has_column "Year" df then drop_column "Year" df else df in
      let df := if has_column "Surname" df then drop_column "Surname" df else df in
      inr df
  end.

(** ** Sidebar options (app.py lines 101-112) *)

(** [Series.unique()]: distinct values in order of first appearance;
    [seen] holds the values already emitted. *)
Fixpoint unique_from (seen : list string) (l : list string) : list string :=
  match l with
  | [] => []
  | x :: t => if in_dec string_dec x seen then unique_from seen t
              else x :: unique_from (x :: seen) t
  end.

Definition py_unique (l : list string) : list string := unique_from [] l.

(** [countries = ['All'] + list(df['Geography'].unique())], line 101. *)
Definition countries (df : list customer) : list string :=
  "All" :: py_unique (map Geography df).

(** [ages = ['All'] + list(df['AgeGroup'].unique())], line 105. *)
Definition ages (df : list customer) : list string :=
  "All" :: py_unique (map (fun r => age_group (Age r)) df).

(** ** KPIs (app.py lines 139-156) *)

Record kpis := mkKpis {
  kpi_total : nat;
  kpi_churned : Z;
  kpi_churn_rate : Q;
  kpi_retained : Z;      (* [total - int(churned)], line 153 *)
  kpi_retained_pct : Q   (* [100 - churn_rate], line 153 *)
}.

Definition app_kpis (filtered_df : list customer) : kpis :=
  let total := length filtered_df in
  let churned := sum_exited filtered_df in
  let churn_rate := guarded_rate filtered_df in
  mkKpis total churned churn_rate (Z.of_nat total - churned)%Z (100 - churn_rate)%Q.

(** ** churn_analysis.py: activity impact and key insights *)

(** [df.groupby(col)['Exited'].mean() * 100] as a Series: one entry per
    group key, in key order. *)
Definition group_mean_pct (key : customer -> option string) (df : list customer)
  : list (string * Q) :=
  map (fun k => let g := group_of key df k in
                (k, (inject_Z (sum_exited g) / inject_Z (Z.of_nat (length g)) * 100)%Q))
      (group_keys key df).

(** [series[k]]: [None] is the KeyError of a missing label. *)
Fixpoint series_get (s : list (string * Q)) (k : string) : option Q :=
  match s with
  | [] => None
  | (k', v) :: t => if String.eqb k' k then Some v else series_get t k
  end.

(** Lines 85-88: [activity['Active']], [activity['Inactive']] and their
    absolute difference; [None] when a lookup raises KeyError. *)
Definition script_activity (df : list customer) : option (Q * Q * Q) :=
  let activity := group_mean_pct activity_col df in
  match series_get activity "Active", series_get activity "Inactive" with
  | Some a, Some i => Some (a, i, Qabs (i - a))
  | _, _ => None
  end.

(** churn_analysis.py from line 55 to line 94: the overall rate (line 57),
    the lookups [activity['Active']] (line 86) and [activity['Inactive']]
    (line 87), then the high-value churn rate (line 94), which is returned.
    The steps in between (lines 67-79) raise nothing. *)
Definition script_run (df : list customer) : script_error + num :=
  match script_overall df with
  | inl e => inl e
  | inr _ =>
      let activity := group_mean_pct activity_col df in
      match series_get activity "Active" with
      | None => inl (KeyError "Active")
      | Some _ =>
          match series_get activity "Inactive" with
          | None => inl (KeyError "Inactive")
          | Some _ => script_hv_churn df
          end
      end
  end.

(** [Series.idxmax()]: the label of the first maximal value; [None] is the
    ValueError raised on an empty Series. *)
Fixpoint idxmax_from (best : string * Q) (s : list (string * Q)) : string :=
  match s with
  | [] => fst best
  | (k, v) :: t => if Qlt_bool (snd best) v then idxmax_from (k, v) t
                   else idxmax_from best t
  end.

Definition idxmax (s : list (string * Q)) : option string :=
  match s with
  | [] => None
  | x :: t => Some (idxmax_from x t)
  end.

(** Line 106: [geo['Rate'].idxmax()], the country with the highest churn
    rate, over the [geo] table of lines 67-69. *)
Definition script_top_country (df : list customer) : option string :=
  idxmax (map (fun a => (seg a, ChurnRate a)) (calc_churn (col_value ByGeography) df)).

(** Position of a balance-segment label in the order of the branches. *)
Definition balance_rank (l : string) : nat :=
  if String.eqb l "Zero Balance" then 0
  else if String.eqb l "Low (<50k)" then 1
  else if String.eqb l "Medium (50k-100k)" then 2
  else 3.

(** ** Lemmas on comparisons *)

Lemma Qlt_bool_iff (x y : Q) : Qlt_bool x y = true <-> (x < y)%Q.
Proof.
  unfold Qlt_bool. rewrite Bool.negb_true_iff. split; intro H.
  - apply Qnot_le_lt. intro H'. apply Qle_bool_iff in H'. congruence.
  - destruct (Qle_bool y x) eqn:E; [|reflexivity].
    apply Qle_bool_iff in E. exfalso. apply (Qlt_not_le _ _ H E).
Qed.

Lemma Qlt_bool_false_iff (x y : Q) : Qlt_bool x y = false <-> (y <= x)%Q.
Proof.
  unfold Qlt_bool. rewrite Bool.negb_false_iff. apply Qle_bool_iff.
Qed.

(** Decides linear facts over [Q] by clearing denominators. *)
Ltac qlia :=
  repeat match goal with
  | q : Q |- _ => let n := fresh "n" in let d := fresh "d" in
                  destruct q as [n d];
                  pose proof (Pos2Z.is_pos d)
  end;
  unfold Qeq, Qlt, Qle in *; cbn [Qnum Qden] in *;
  lia.

(** Splits on a comparison and turns its outcome into a hypothesis. *)
Ltac qcase e :=
  let E := fresh "E" in
  destruct e eqn:E;
  [ first [apply Qeq_bool_iff in E | apply Qlt_bool_iff in E]
  | first [apply Qeq_bool_neq in E | apply Qlt_bool_false_iff in E] ].

(** ** Lemmas on grouping *)

Lemma insert_key_perm (k : string) (l : list string) :
  Permutation (insert_key k l) (k :: l).
Proof.
  induction l as [|h t IH]; simpl; [reflexivity|].
  destruct (String.leb k h); [reflexivity|].
  rewrite IH. apply perm_swap.
Qed.

Lemma sort_keys_perm (l : list string) : Permutation (sort_keys l) l.
Proof.
  induction l as [|h t IH]; simpl; [reflexivity|].
  rewrite insert_key_perm. now apply perm_skip.
Qed.

Lemma group_keys_NoDup key rs : NoDup (group_keys key rs).
Proof.
  unfold group_keys. eapply Permutation_NoDup.
  - symmetry. apply sort_keys_perm.
  - apply NoDup_nodup.
Qed.

Lemma in_group_keys key rs k :
  In k (group_keys key rs) <-> exists r, In r rs /\ key r = Some k.
Proof.
  unfold group_keys. split; intro H.
  - apply (Permutation_in _ (sort_keys_perm _)), nodup_In in H.
    unfold present_keys in H. apply in_flat_map in H as [r [Hr Hk]].
    exists r. split; [assumption|].
    destruct (key r); simpl in Hk; [|contradiction].
    destruct Hk as [->|[]]; reflexivity.
  - destruct H as [r [Hr Hk]].
    apply (Permutation_in _ (Permutation_sym (sort_keys_perm _))), nodup_In.
    apply in_flat_map. exists r. rewrite Hk. simpl; auto.
Qed.

Lemma cell_eqb_true x k : cell_eqb x k = true <-> x = Some k.
Proof.
  destruct x; simpl; [rewrite String.eqb_eq|]; split; congruence.
Qed.

(** Over a duplicate-free key list, a row is counted once if its key is in
    the list, else never. *)
Lemma sum_indicator (x : option string) (K : list string) :
  NoDup K ->
  list_sum (map (fun k => if cell_eqb x k then 1 else 0) K) =
  match x with Some s => if in_dec string_dec s K then 1 else 0 | None => 0 end.
Proof.
  induction 1 as [|k K Hk HK IH]; simpl.
  - destruct x; reflexivity.
  - rewrite IH. destruct x as [s|]; simpl; [|reflexivity].
    destruct (String.eqb_spec s k) as [->|Hne].
    + destruct (in_dec string_dec k K); [contradiction|].
      destruct (string_dec k k); [reflexivity|congruence].
    + destruct (string_dec k s); [congruence|].
      destruct (in_dec string_dec s K); reflexivity.
Qed.

Lemma sum_group_sizes (key : customer -> option string) (K : list string)
  (rs : list customer) :
  NoDup K ->
  list_sum (map (fun k => length (filter (fun r => cell_eqb (key r) k) rs)) K) =
  length (filter (fun r => match key r with
                           | Some s => if in_dec string_dec s K then true else false
                           | None => false end) rs).
Proof.
  intro HK. induction rs as [|r rs IH]; simpl.
  - induction K; simpl; [reflexivity|].
    apply IHK. now inversion HK.
  - transitivity (list_sum (map (fun k => if cell_eqb (key r) k then 1 else 0) K) +
                  list_sum (map (fun k => length (filter (fun r => cell_eqb (key r) k) rs)) K)).
    + clear IH HK. induction K as [|k K IHK]; simpl; [reflexivity|].
      rewrite IHK. destruct (cell_eqb (key r) k); simpl; lia.
    + rewrite IH, sum_indicator by assumption.
      destruct (key r) as [s|]; [|reflexivity].
      destruct (in_dec string_dec s K); reflexivity.
Qed.

(** The group totals of [calc_churn] add up to the number of rows whose key
    is not NaN. *)
Lemma calc_churn_totals (key : customer -> option string) (rs : list customer) :
  list_sum (map Total (calc_churn key rs)) =
  length (filter (fun r => match key r with Some _ => true | None => false end) rs).
Proof.
  unfold calc_churn. rewrite map_map. simpl.
  unfold group_of. rewrite sum_group_sizes by apply group_keys_NoDup.
  f_equal. apply filter_ext_in. intros r Hr.
  destruct (key r) as [s|] eqn:Hk; [|reflexivity].
  destruct (in_dec string_dec s (group_keys key rs)) as [|Hn]; [reflexivity|].
  exfalso. apply Hn, in_group_keys. eauto.
Qed.

Lemma calc_churn_nonempty key rs a :
  In a (calc_churn key rs) -> (0 < Total a)%nat.
Proof.
  unfold calc_churn. intro H. apply in_map_iff in H as [k [<- Hk]].
  apply in_group_keys in Hk as [r [Hr Hkr]].
  simpl. unfold group_of.
  assert (In r (filter (fun r => cell_eqb (key r) k) rs)).
  { apply filter_In. split; [assumption|]. now apply cell_eqb_true. }
  destruct (filter _ rs); [contradiction|simpl; lia].
Qed.

Lemma sum_exited_bounds (g : list customer) :
  Forall wt g -> (0 <= sum_exited g <= Z.of_nat (length g))%Z.
Proof.
  induction 1 as [|r g Hr _ IH]; simpl; [lia|].
  unfold wt in Hr. lia.
Qed.

Lemma rate_bounds (c t : Z) :
  (0 <= c <= t)%Z ->
  (0 <= inject_Z c / inject_Z t * 100 <= 100)%Q /\
  (t = 0%Z -> inject_Z c / inject_Z t * 100 == 0)%Q.
Proof.
  intros H. destruct t as [|p|p]; [| |lia].
  - split; [|intros _; unfold Qeq, Qdiv, Qmult, Qinv, inject_Z; simpl; lia].
    unfold Qle, Qdiv, Qmult, Qinv, inject_Z; simpl. lia.
  - split; [|discriminate].
    unfold Qle, Qdiv, Qmult, Qinv, inject_Z; simpl.
    rewrite ?Pos.mul_1_r. lia.
Qed.

Lemma filter_partition {A} (f : A -> bool) (l : list A) :
  Permutation (filter f l ++ filter (fun x => negb (f x)) l) l.
Proof.
  induction l as [|x l IH]; simpl; [reflexivity|].
  destruct (f x); simpl.
  - now apply perm_skip.
  - rewrite <- Permutation_middle. now apply perm_skip.
Qed.

Lemma sum_balance_filter (f g : customer -> bool) (l : list customer) :
  sum_balance (filter f (filter g l)) =
  sum_balance (filter (fun r => f r && g r) l).
Proof.
  induction l as [|r l IH]; simpl; [reflexivity|].
  destruct (g r); simpl; destruct (f r); simpl; rewrite ?IH; reflexivity.
Qed.

(** ** Lemmas on the remaining code *)

Lemma unique_from_In (seen l : list string) (x : string) :
  In x (unique_from seen l) <-> In x l /\ ~ In x seen.
Proof.
  revert seen. induction l as [|y l IH]; intro seen; simpl; [tauto|].
  destruct (in_dec string_dec y seen) as [Hy|Hy].
  - rewrite IH. split; [tauto|]. intros [[<-|H] Hn]; [contradiction|tauto].
  - simpl. rewrite IH. simpl. split.
    + intros [<-|[H1 H2]]; [tauto|]. tauto.
    + intros [[<-|H] Hn]; [left; reflexivity|].
      destruct (string_dec y x); [left; assumption|right; tauto].
Qed.

Lemma unique_from_NoDup (seen l : list string) : NoDup (unique_from seen l).
Proof.
  revert seen. induction l as [|y l IH]; intro seen; simpl; [constructor|].
  destruct (in_dec string_dec y seen); [apply IH|].
  constructor; [|apply IH].
  rewrite unique_from_In. simpl. tauto.
Qed.

Lemma filter_filter_and {A} (f g : A -> bool) (l : list A) :
  filter f (filter g l) = filter (fun x => g x && f x) l.
Proof.
  induction l as [|x l IH]; simpl; [reflexivity|].
  destruct (g x); simpl; [destruct (f x); simpl|]; rewrite IH; reflexivity.
Qed.

Lemma series_get_map (f : string -> Q) (K : list string) (k : string) :
  series_get (map (fun k => (k, f k)) K) k =
  if in_dec string_dec k K then Some (f k) else None.
Proof.
  induction K as [|k' K IH]; simpl; [reflexivity|].
  destruct (String.eqb_spec k' k) as [->|Hne].
  - destruct (string_dec k k); [reflexivity|congruence].
  - rewrite IH. destruct (string_dec k' k); [congruence|].
    destruct (in_dec string_dec k K); reflexivity.
Qed.

Lemma idxmax_from_spec (best : string * Q) (s : list (string * Q)) :
  exists v, In (idxmax_from best s, v) (best :: s) /\ (snd best <= v)%Q /\
            forall p, In p s -> (snd p <= v)%Q.
Proof.
  revert best. induction s as [|[k v] s IH]; intros [bk bv]; simpl.
  - exists bv. split; [left; reflexivity|]. split; [apply Qle_refl|tauto].
  - destruct (Qlt_bool bv v) eqn:E.
    + apply Qlt_bool_iff in E.
      destruct (IH (k, v)) as [w [Hin [Hle Hall]]]; simpl in *.
      exists w. split; [tauto|]. split; [apply Qlt_le_weak; eapply Qlt_le_trans; eassumption|].
      intros p [<-|Hp]; [exact Hle|apply Hall, Hp].
    + apply Qlt_bool_false_iff in E.
      destruct (IH (bk, bv)) as [w [Hin [Hle Hall]]]; simpl in *.
      exists w. split; [destruct Hin as [H|H]; [left; exact H|right; right; exact H]|].
      split; [exact Hle|].
      intros p [<-|Hp]; [simpl; eapply Qle_trans; eassumption|apply Hall, Hp].
Qed.

Lemma filter_all_true {A} (f : A -> bool) (l : list A) :
  (forall x, f x = true) -> filter f l = l.
Proof.
  intro H. induction l as [|x l IH]; simpl; [reflexivity|].
  rewrite H, IH. reflexivity.
Qed.

Lemma activity_lookup (df : list customer) (label : string) (v : Z) :
  activity_status v = Some label ->
  (series_get (group_mean_pct activity_col df) label <> None <->
   exists r, In r df /\ IsActiveMember r = v).
Proof.
  intro Hv. unfold group_mean_pct.
  rewrite (series_get_map (fun k => let g := group_of activity_col df k in
       (inject_Z (sum_exited g) / inject_Z (Z.of_nat (length g)) * 100)%Q)).
  assert (Hinj : forall w, activity_status w = Some label -> w = v).
  { intros w Hw. rewrite <- Hv in Hw. unfold activity_status in *.
    destruct (w =? 1)%Z eqn:W1, (v =? 1)%Z eqn:V1;
    rewrite ?Z.eqb_eq in *; try congruence;
    destruct (w =? 0)%Z eqn:W0; destruct (v =? 0)%Z eqn:V0;
    rewrite ?Z.eqb_eq in *; congruence. }
  destruct (in_dec string_dec label (group_keys activity_col df)) as [Hk|Hk];
  rewrite in_group_keys in Hk; unfold activity_col in Hk; split; intro H.
  - destruct Hk as [r [Hr Hs]]. exists r. split; [exact Hr|]. apply Hinj, Hs.
  - discriminate.
  - congruence.
  - exfalso. apply Hk. destruct H as [r [Hr Hs]]. exists r. rewrite Hs. auto.
Qed.

Lemma filter_length_lt {A} (f : A -> bool) (l : list A) (x : A) :
  In x l -> f x = false -> length (filter f l) < length l.
Proof.
  induction l as [|y l IH]; intros Hx Hf; [contradiction|].
  simpl. destruct Hx as [<-|Hx].
  - rewrite Hf. pose proof (filter_length_le f l). lia.
  - specialize (IH Hx Hf). destruct (f y); simpl; lia.
Qed.

Lemma map_seg_calc_churn key rs : map seg (calc_churn key rs) = group_keys key rs.
Proof. unfold calc_churn. rewrite map_map. simpl. apply map_id. Qed.

Lemma nodup_const (c : string) (l : list string) :
  (forall x, In x l -> x = c) -> l <> [] -> nodup string_dec l = [c].
Proof.
  induction l as [|x l IH]; intros Hc Hne; [congruence|].
  simpl. destruct l as [|y l].
  - simpl. f_equal. apply Hc. left; reflexivity.
  - destruct (in_dec string_dec x (y :: l)) as [|Hn].
    + apply IH; [intros z Hz; apply Hc; right; exact Hz|discriminate].
    + exfalso. apply Hn. rewrite (Hc x), (Hc y) by (simpl; auto). left; reflexivity.
Qed.

Lemma guarded_rate_bounds (g : list customer) :
  Forall wt g -> (0 <= guarded_rate g <= 100)%Q.
Proof.
  intro Hg. unfold guarded_rate.
  destruct (0 <? length g)%nat.
  - apply (rate_bounds _ _ (sum_exited_bounds _ Hg)).
  - split; discriminate.
Qed.

Lemma sum_exited_split (th : Q) (rs : list customer) :
  (sum_exited (filter (fun r => Qlt_bool th (Balance r)) rs) +
   sum_exited (filter (fun r => Qle_bool (Balance r) th) rs) = sum_exited rs)%Z.
Proof.
  induction rs as [|r rs IH]; simpl; [reflexivity|].
  unfold Qlt_bool at 1. destruct (Qle_bool (Balance r) th); simpl; lia.
Qed.

Lemma at_risk_bounds (th : Q) (Hth : (0 <= th)%Q) (hv : list customer) :
  Forall (fun r => Qlt_bool th (Balance r) = true) hv ->
  (th * inject_Z (Z.of_nat (length (filter (fun r => (Exited r =? 1)%Z) hv)))
     <= sum_balance (filter (fun r => (Exited r =? 1)%Z) hv))%Q /\
  (sum_balance (filter (fun r => (Exited r =? 1)%Z) hv) <= sum_balance hv)%Q.
Proof.
  induction 1 as [|r hv Hr _ [IH1 IH2]]; simpl.
  - split; [|apply Qle_refl]. rewrite Qmult_0_r. apply Qle_refl.
  - apply Qlt_bool_iff in Hr.
    destruct (Exited r =? 1)%Z; simpl.
    + split.
      * rewrite Zpos_P_of_succ_nat, <- Z.add_1_l, inject_Z_plus, Qmult_plus_distr_r.
        apply Qplus_le_compat; [|exact IH1].
        rewrite Qmult_1_r. apply Qlt_le_weak, Hr.
      * apply Qplus_le_compat; [apply Qle_refl|exact IH2].
    + split; [exact IH1|].
      rewrite <- (Qplus_0_l (sum_balance (filter _ hv))).
      apply Qplus_le_compat; [|exact IH2].
      apply Qlt_le_weak. eapply Qle_lt_trans; eassumption.
Qed.

(** ** Theorems *)

(** C3: for every balance [b >= 0], [balance_segment b] is the label of the
    unique range containing [b]: [b = 0] gives "Zero Balance" (the [== 0]
    branch comes first, so 0 is not "Low"), [0 < b < 50000] gives
    "Low (<50k)", [50000 <= b < 100000] gives "Medium (50k-100k)" and
    [b >= 100000] gives "High (100k+)"; the result is one of these four
    labels. *)
Theorem balance_segment_rule (b : Q) (Hb : (0 <= b)%Q) :
  (b == 0 -> balance_segment b = "Zero Balance")%Q /\
  (0 < b -> b < 50000 -> balance_segment b = "Low (<50k)")%Q /\
  (50000 <= b -> b < 100000 -> balance_segment b = "Medium (50k-100k)")%Q /\
  (100000 <= b -> balance_segment b = "High (100k+)")%Q /\
  In (balance_segment b)
     ["Zero Balance"; "Low (<50k)"; "Medium (50k-100k)"; "High (100k+)"].
Proof.
  unfold balance_segment.
  destruct (Qeq_bool b 0) eqn:E0;
  [apply Qeq_bool_iff in E0 | apply Qeq_bool_neq in E0];
  destruct (Qlt_bool b 50000) eqn:E1;
  [apply Qlt_bool_iff in E1 | apply Qlt_bool_false_iff in E1 |
   apply Qlt_bool_iff in E1 | apply Qlt_bool_false_iff in E1];
  destruct (Qlt_bool b 100000) eqn:E2;
  [apply Qlt_bool_iff in E2 | apply Qlt_bool_false_iff in E2 |
   apply Qlt_bool_iff in E2 | apply Qlt_bool_false_iff in E2 |
   apply Qlt_bool_iff in E2 | apply Qlt_bool_false_iff in E2 |
   apply Qlt_bool_iff in E2 | apply Qlt_bool_false_iff in E2];
  repeat split; intros; first [reflexivity | simpl; tauto | exfalso; qlia].
Qed.

(** C4: every age falls into exactly one of the four age groups by the
    half-open ranges [age < 30], [30 <= age < 45], [45 <= age < 60],
    [age >= 60]; the labels are distinct, and the group index is monotone in
    the age, so no label reappears after a higher one. *)
Theorem age_group_rule (a : Z) :
  ((a < 30)%Z -> age_group a = "Young (<30)") /\
  ((30 <= a < 45)%Z -> age_group a = "Middle Age (30-45)") /\
  ((45 <= a < 60)%Z -> age_group a = "Senior (45-60)") /\
  ((60 <= a)%Z -> age_group a = "Elderly (60+)") /\
  In (age_group a)
     ["Young (<30)"; "Middle Age (30-45)"; "Senior (45-60)"; "Elderly (60+)"] /\
  NoDup ["Young (<30)"; "Middle Age (30-45)"; "Senior (45-60)"; "Elderly (60+)"] /\
  (forall a' : Z, (a <= a')%Z -> (age_rank (age_group a) <= age_rank (age_group a'))%nat).
Proof.
  unfold age_group.
  repeat split; intros;
  repeat match goal with
  | |- context [(?x <? ?y)%Z] => destruct (x <? y)%Z eqn:?
  end;
  rewrite ?Z.ltb_lt, ?Z.ltb_ge in *;
  first [reflexivity | lia | simpl; tauto | cbn; lia | idtac].
  repeat constructor; simpl; intuition discriminate.
Qed.

(** C5: over well-typed rows ([Exited] in {0, 1}) and for any grouping key,
    every row produced by [calc_churn] has [0 <= Churned <= Total], a churn
    rate in [[0, 100]], and a churn rate of 0 whenever [Total] is 0. *)
Theorem calc_churn_invariants (key : customer -> option string)
  (rs : list customer) (Hwt : Forall wt rs) :
  Forall (fun a => (0 <= Churned a <= Z.of_nat (Total a))%Z /\
                   (0 <= ChurnRate a <= 100)%Q /\
                   (Total a = 0 -> (ChurnRate a == 0)%Q))
         (calc_churn key rs).
Proof.
  apply Forall_forall. intros a Ha.
  unfold calc_churn in Ha. apply in_map_iff in Ha as [k [<- _]].
  unfold agg_group; simpl.
  assert (Hg : Forall wt (group_of key rs k)).
  { unfold group_of. apply Forall_forall. intros r Hr.
    apply filter_In in Hr as [Hr _]. eapply Forall_forall; eassumption. }
  pose proof (sum_exited_bounds _ Hg) as Hb.
  destruct (rate_bounds _ _ Hb) as [Hr0 Hr1].
  split; [exact Hb|]. split; [exact Hr0|].
  intros H0. apply Hr1. rewrite H0. reflexivity.
Qed.

(** C6: for each of the four grouping columns, the [Total]s of the rows of
    [calc_churn] add up to the number of input rows, and no row has
    [Total = 0]. *)
Theorem calc_churn_partition (c : segment_col) (rs : list customer) :
  list_sum (map Total (calc_churn (col_value c) rs)) = length rs /\
  Forall (fun a => (0 < Total a)%nat) (calc_churn (col_value c) rs).
Proof.
  split.
  - rewrite calc_churn_totals.
    transitivity (length (filter (fun _ => true) rs)).
    + f_equal. apply filter_ext. intro r. destruct c; reflexivity.
    + induction rs; simpl; congruence.
  - apply Forall_forall. intros a. apply calc_churn_nonempty.
Qed.

(** C10: a row whose [IsActiveMember] is neither 0 nor 1 gets no activity
    label (NaN); it lies in no [ActivityStatus] group, so the group totals
    fall short of the number of rows. *)
Theorem activity_status_unmapped (r : customer) (rs : list customer)
  (Hin : In r rs)
  (H : (IsActiveMember r <> 0 /\ IsActiveMember r <> 1)%Z) :
  activity_status (IsActiveMember r) = None /\
  (forall k, ~ In r (group_of activity_col rs k)) /\
  list_sum (map Total (calc_churn activity_col rs)) < length rs.
Proof.
  assert (Hn : activity_status (IsActiveMember r) = None).
  { unfold activity_status. destruct H as [H0 H1].
    apply Z.eqb_neq in H0, H1. now rewrite H0, H1. }
  split; [exact Hn|]. split.
  - intros k Hg. unfold group_of in Hg. apply filter_In in Hg as [_ Hk].
    unfold activity_col in Hk. rewrite Hn in Hk. discriminate.
  - rewrite calc_churn_totals. apply filter_length_lt with (x := r); [exact Hin|].
    unfold activity_col. rewrite Hn. reflexivity.
Qed.

(** C1 (code defect): churn_analysis.py computes the high-value churn rate
    without the [len(hv) > 0] guard of app.py, so a frame with an active and
    an inactive member but no balance above 100000 runs to line 94 and
    yields nan, where app.py yields 0. *)
Theorem script_hv_churn_nan :
  let df := [mkCustomer "France" "Female" 42 0 1 0;
             mkCustomer "Spain" "Male" 61 50000 0 1] in
  script_run df = inr NaN /\ hv_churn (app_high_value df) = 0%Q.
Proof. split; reflexivity. Qed.

(** C2 refuted: a readable frame without the [Age] column (nor any other
    required column but [Geography]) is loaded without error. *)
Lemma load_data_missing_column :
  let df := [("Geography", ["France"])] in
  has_column "Age" df = false /\ load_data (Some df) = inr df.
Proof. split; reflexivity. Qed.

(** C2 (amended): [load_data] fails only when the file cannot be read, with
    the reader's own error; every readable frame loads, whatever its
    columns, and the result keeps exactly the columns other than [Year] and
    [Surname], with their data. *)
Theorem load_data_spec (df : table) :
  load_data None = inl ReadError /\
  exists out, load_data (Some df) = inr out /\
    forall col, In col out <-> In col df /\ fst col <> "Year" /\ fst col <> "Surname".
Proof.
  split; [reflexivity|].
  assert (Hd : forall c t col, In col (drop_column c t) <-> In col t /\ fst col <> c).
  { intros c t col. unfold drop_column. rewrite filter_In.
    rewrite Bool.negb_true_iff, String.eqb_neq. tauto. }
  assert (Hk : forall c t col, In col (if has_column c t then drop_column c t else t) <->
                               In col t /\ fst col <> c).
  { intros c t col. destruct (has_column c t) eqn:E; [apply Hd|].
    split; [|tauto]. intro Hin. split; [assumption|]. intros Heq.
    unfold has_column in E. rewrite <- Bool.not_true_iff_false in E. apply E.
    apply existsb_exists. exists col. split; [assumption|].
    now apply String.eqb_eq. }
  eexists. split; [reflexivity|]. intro col.
  rewrite Hk, Hk. tauto.
Qed.

(** C7: for every threshold, the high-value tab splits the rows into those
    with balance strictly above the threshold and those at or below it: the
    two parts together are a permutation of the input (exhaustive and
    disjoint, occurrence by occurrence); each part's churn rate is 0 when it
    is empty and [sum Exited / count * 100] otherwise; the balance at risk is
    the sum of balances of churned ([Exited = 1]) rows above the threshold. *)
Theorem high_value_split_spec (threshold : Q) (rs : list customer) :
  let rep := high_value_split threshold rs in
  (forall r, In r (hv_rows rep) <-> In r rs /\ (threshold < Balance r)%Q) /\
  (forall r, In r (reg_rows rep) <-> In r rs /\ (Balance r <= threshold)%Q) /\
  Permutation (hv_rows rep ++ reg_rows rep) rs /\
  (hv_rows rep = [] -> hv_churn rep = 0%Q) /\
  (reg_rows rep = [] -> reg_churn rep = 0%Q) /\
  (hv_rows rep <> [] -> hv_churn rep =
     (inject_Z (sum_exited (hv_rows rep)) /
      inject_Z (Z.of_nat (length (hv_rows rep))) * 100)%Q) /\
  (reg_rows rep <> [] -> reg_churn rep =
     (inject_Z (sum_exited (reg_rows rep)) /
      inject_Z (Z.of_nat (length (reg_rows rep))) * 100)%Q) /\
  at_risk rep = sum_balance (filter (fun r => (Exited r =? 1)%Z &&
                                              Qlt_bool threshold (Balance r)) rs).
Proof.
  unfold high_value_split; cbn zeta; simpl.
  assert (Hrate : forall g, g <> [] -> guarded_rate g =
     (inject_Z (sum_exited g) / inject_Z (Z.of_nat (length g)) * 100)%Q).
  { intros [|x g] H; [congruence|reflexivity]. }
  split; [intro r; rewrite filter_In, Qlt_bool_iff; tauto|].
  split; [intro r; rewrite filter_In, Qle_bool_iff; tauto|].
  split.
  { replace (filter (fun r => Qle_bool (Balance r) threshold) rs)
      with (filter (fun r => negb (Qlt_bool threshold (Balance r))) rs)
      by (apply filter_ext; intro r; unfold Qlt_bool;
          now rewrite Bool.negb_involutive).
    apply filter_partition. }
  split; [intro H; rewrite H; reflexivity|].
  split; [intro H; rewrite H; reflexivity|].
  split; [apply Hrate|].
  split; [apply Hrate|].
  apply sum_balance_filter.
Qed.

(** C8: on the rows (Germany, 25, 0, not exited), (France, 50, 120000,
    exited), (Germany, 70, 60000, exited), whatever their [Gender] and
    [IsActiveMember], grouping by [Geography] gives France with total 1,
    churned 1, rate 100 and Germany with total 2, churned 1, rate 50 (in
    this order, as [groupby] sorts its keys), and the high-value tab gives
    one high-value row with rate 100 and 120000 at risk, and two regular
    rows with rate 50. *)
Theorem scenario_three_rows (g1 g2 g3 : string) (a1 a2 a3 : Z) :
  let rs := [mkCustomer "Germany" g1 25 0 a1 0;
             mkCustomer "France" g2 50 120000 a2 1;
             mkCustomer "Germany" g3 70 60000 a3 1] in
  match calc_churn (col_value ByGeography) rs with
  | [fr; de] =>
      seg fr = "France" /\ Total fr = 1 /\ Churned fr = 1%Z /\
      (ChurnRate fr == 100)%Q /\
      seg de = "Germany" /\ Total de = 2 /\ Churned de = 1%Z /\
      (ChurnRate de == 50)%Q
  | _ => False
  end /\
  let rep := app_high_value rs in
  length (hv_rows rep) = 1 /\ (hv_churn rep == 100)%Q /\
  (at_risk rep == 120000)%Q /\
  length (reg_rows rep) = 2 /\ (reg_churn rep == 50)%Q.
Proof.
  vm_compute. repeat split; reflexivity.
Qed.

(** C9: with every selectbox at ['All'], the filtered frame is the input
    frame itself, same rows in the same order. *)
Theorem apply_filters_all (rs : list customer) :
  apply_filters "All" "All" "All" "All" rs = rs.
Proof. reflexivity. Qed.

(** Witnesses. *)

Lemma balance_segment_rule_witness :
  (0 <= 0)%Q /\ balance_segment 0 = "Zero Balance".
Proof.
  split; [discriminate|].
  apply (balance_segment_rule 0); [discriminate | reflexivity].
Defined.

Lemma calc_churn_invariants_witness :
  Forall wt [mkCustomer "France" "Male" 30 1000 1 1] /\
  Forall (fun a => (0 <= Churned a <= Z.of_nat (Total a))%Z /\
                   (0 <= ChurnRate a <= 100)%Q /\
                   (Total a = 0 -> (ChurnRate a == 0)%Q))
         (calc_churn (col_value ByGeography) [mkCustomer "France" "Male" 30 1000 1 1]).
Proof.
  assert (H : Forall wt [mkCustomer "France" "Male" 30 1000 1 1]).
  { constructor; [|constructor]. unfold wt; simpl; right; reflexivity. }
  split; [exact H|].
  apply (calc_churn_invariants (col_value ByGeography) _ H).
Defined.

Lemma activity_status_unmapped_witness :
  (IsActiveMember (mkCustomer "Spain" "Female" 40 0 2 0) <> 0 /\
   IsActiveMember (mkCustomer "Spain" "Female" 40 0 2 0) <> 1)%Z /\
  list_sum (map Total (calc_churn activity_col [mkCustomer "Spain" "Female" 40 0 2 0])) <
  length [mkCustomer "Spain" "Female" 40 0 2 0].
Proof.
  assert (H : (IsActiveMember (mkCustomer "Spain" "Female" 40 0 2 0) <> 0 /\
               IsActiveMember (mkCustomer "Spain" "Female" 40 0 2 0) <> 1)%Z).
  { simpl; split; discriminate. }
  split; [exact H|].
  exact (proj2 (proj2 (activity_status_unmapped (mkCustomer "Spain" "Female" 40 0 2 0)
    [mkCustomer "Spain" "Female" 40 0 2 0] (or_introl eq_refl) H))).
Defined.

(** ** Further properties of the code *)

(** The four sidebar filters compose as a conjunction: the filtered frame
    keeps, in their original order, exactly the rows that pass every filter
    whose selection is not ['All']. *)
Theorem apply_filters_conj (c a g act : string) (rs : list customer) :
  apply_filters c a g act rs =
  filter (fun r => (String.eqb c "All" || String.eqb (Geography r) c) &&
                   (String.eqb a "All" || String.eqb (age_group (Age r)) a) &&
                   (String.eqb g "All" || String.eqb (Gender r) g) &&
                   (String.eqb act "All" || cell_eqb (activity_col r) act)) rs.
Proof.
  unfold apply_filters.
  destruct (String.eqb c "All"), (String.eqb a "All"),
           (String.eqb g "All"), (String.eqb act "All"); simpl;
  rewrite ?filter_filter_and;
  first [ apply filter_ext | symmetry; apply filter_all_true ]; intro r;
  destruct (String.eqb (Geography r) c), (String.eqb (age_group (Age r)) a),
           (String.eqb (Gender r) g), (cell_eqb (activity_col r) act);
  reflexivity.
Qed.

(** Every country and every age group offered in the sidebar, alone (other
    filters at ['All']), selects at least one row of a non-empty frame; the
    offered values after ['All'] have no repetition. *)
Theorem sidebar_options_nonempty (rs : list customer) (Hne : rs <> []) :
  (forall c, In c (countries rs) -> apply_filters c "All" "All" "All" rs <> []) /\
  (forall a, In a (ages rs) -> apply_filters "All" a "All" "All" rs <> []) /\
  NoDup (py_unique (map Geography rs)) /\
  NoDup (py_unique (map (fun r => age_group (Age r)) rs)).
Proof.
  split; [|split; [|split; apply unique_from_NoDup]].
  - intros c Hc. rewrite apply_filters_conj.
    destruct (String.eqb_spec c "All") as [->|Hca].
    + destruct rs as [|r rs]; [congruence|]. simpl. discriminate.
    + destruct Hc as [Hc|Hc]; [congruence|].
      apply unique_from_In in Hc as [Hc _].
      apply in_map_iff in Hc as [r [Hr Hin]].
      intro Hnil. apply (in_nil (a := r)). rewrite <- Hnil.
      apply filter_In. split; [exact Hin|]. cbn beta.
      rewrite Hr, (String.eqb_refl c), Bool.orb_true_r. reflexivity.
  - intros a Ha. rewrite apply_filters_conj.
    destruct (String.eqb_spec a "All") as [->|Haa].
    + destruct rs as [|r rs]; [congruence|]. simpl. discriminate.
    + destruct Ha as [Ha|Ha]; [congruence|].
      apply unique_from_In in Ha as [Ha _].
      apply in_map_iff in Ha as [r [Hr Hin]].
      intro Hnil. apply (in_nil (a := r)). rewrite <- Hnil.
      apply filter_In. split; [exact Hin|]. cbn beta.
      rewrite Hr, (String.eqb_refl a), Bool.orb_true_r. reflexivity.
Qed.

(** The activity filter keeps exactly the rows with [IsActiveMember = 1]
    for ['Active'] and [IsActiveMember = 0] for ['Inactive']; a row with
    any other value is dropped by both. *)
Theorem activity_filter_rows (rs : list customer) :
  apply_filters "All" "All" "All" "Active" rs =
    filter (fun r => (IsActiveMember r =? 1)%Z) rs /\
  apply_filters "All" "All" "All" "Inactive" rs =
    filter (fun r => (IsActiveMember r =? 0)%Z) rs.
Proof.
  rewrite !apply_filters_conj. split; apply filter_ext; intro r; simpl;
  unfold activity_col, activity_status;
  destruct (IsActiveMember r =? 1)%Z eqn:E1; destruct (IsActiveMember r =? 0)%Z eqn:E0;
  simpl; try reflexivity;
  apply Z.eqb_eq in E1; apply Z.eqb_eq in E0; congruence.
Qed.

(** The dashboard's KPIs on well-typed rows: the churned count lies in
    [[0, total]], retained = total - churned is non-negative, the churn
    rate lies in [[0, 100]] and the retained percentage is its complement to
    100; on an empty frame the churn rate is 0 and the retained percentage
    100. *)
Theorem app_kpis_bounds (rs : list customer) (Hwt : Forall wt rs) :
  let k := app_kpis rs in
  (0 <= kpi_churned k <= Z.of_nat (kpi_total k))%Z /\
  (0 <= kpi_retained k)%Z /\
  (kpi_retained k + kpi_churned k = Z.of_nat (kpi_total k))%Z /\
  (0 <= kpi_churn_rate k <= 100)%Q /\
  (kpi_retained_pct k + kpi_churn_rate k == 100)%Q /\
  (rs = [] -> kpi_churn_rate k = 0%Q /\ (kpi_retained_pct k == 100)%Q).
Proof.
  simpl. pose proof (sum_exited_bounds _ Hwt) as Hb.
  split; [exact Hb|]. split; [lia|]. split; [lia|].
  split; [apply guarded_rate_bounds, Hwt|].
  split; [ring|].
  intros ->. split; reflexivity.
Qed.

(** The rows of [calc_churn] are keyed by exactly the distinct non-NaN
    values of the grouping column, each once. *)
Lemma calc_churn_keys (key : customer -> option string) (rs : list customer) :
  (forall k, In k (map seg (calc_churn key rs)) <->
             exists r, In r rs /\ key r = Some k) /\
  NoDup (map seg (calc_churn key rs)).
Proof.
  rewrite map_seg_calc_churn. split; [apply in_group_keys|apply group_keys_NoDup].
Qed.

(** Once a country [c] is selected, the geographic tab's table has the single
    row of [c] when some row is from [c], and no row otherwise. *)
Theorem geo_table_selected_country (c : string) (rs : list customer)
  (Hc : c <> "All") :
  map seg (calc_churn (col_value ByGeography) (apply_filters c "All" "All" "All" rs)) =
  if existsb (fun r => String.eqb (Geography r) c) rs then [c] else [].
Proof.
  rewrite map_seg_calc_churn, apply_filters_conj.
  apply String.eqb_neq in Hc. rewrite Hc. simpl.
  set (f := filter _ rs).
  assert (Hf : forall r, In r f <-> In r rs /\ Geography r = c).
  { intro r. unfold f. rewrite filter_In, !Bool.andb_true_r, String.eqb_eq. tauto. }
  unfold group_keys, present_keys. simpl.
  assert (Hp : forall x, In x (flat_map (fun r => [Geography r]) f) -> x = c).
  { intros x Hx. apply in_flat_map in Hx as [r [Hr [<-|[]]]]. apply Hf, Hr. }
  destruct (existsb (fun r => String.eqb (Geography r) c) rs) eqn:E.
  - apply existsb_exists in E as [r [Hr Hg]]. apply String.eqb_eq in Hg.
    rewrite (nodup_const c); [reflexivity|exact Hp|].
    intro Hnil. assert (Hin : In (Geography r) (flat_map (fun r => [Geography r]) f)).
    { apply in_flat_map. exists r. split; [apply Hf; auto|left; reflexivity]. }
    rewrite Hnil in Hin. exact Hin.
  - destruct f as [|r f'] eqn:Ef; [reflexivity|].
    exfalso. assert (Hr : In r (r :: f')) by (left; reflexivity).
    apply Hf in Hr as [Hr Hg].
    rewrite <- Bool.not_true_iff_false in E. apply E, existsb_exists.
    exists r. split; [exact Hr|]. now apply String.eqb_eq.
Qed.

(** On well-typed rows, both churn rates of the high-value tab lie in
    [[0, 100]], for every threshold. *)
Theorem high_value_rates_bounds (threshold : Q) (rs : list customer)
  (Hwt : Forall wt rs) :
  (0 <= hv_churn (high_value_split threshold rs) <= 100)%Q /\
  (0 <= reg_churn (high_value_split threshold rs) <= 100)%Q.
Proof.
  simpl. split; apply guarded_rate_bounds;
  apply Forall_forall; intros r Hr; apply filter_In in Hr as [Hr _];
  eapply Forall_forall; eassumption.
Qed.

(** The churned counts of the high-value and regular partitions add up to
    the dashboard's overall churned KPI. *)
Theorem high_value_churned_split (threshold : Q) (rs : list customer) :
  (sum_exited (hv_rows (high_value_split threshold rs)) +
   sum_exited (reg_rows (high_value_split threshold rs)) =
   kpi_churned (app_kpis rs))%Z.
Proof. simpl. apply sum_exited_split. Qed.

(** The dashboard's balance at risk is at least 100000 per churned
    high-value customer, and at most the total balance of the high-value
    customers. *)
Theorem app_at_risk_bounds (rs : list customer) :
  let rep := app_high_value rs in
  (100000 * inject_Z (Z.of_nat (length (filter (fun r => (Exited r =? 1)%Z) (hv_rows rep))))
     <= at_risk rep)%Q /\
  (at_risk rep <= sum_balance (hv_rows rep))%Q.
Proof.
  simpl. apply at_risk_bounds; [discriminate|].
  apply Forall_forall. intros r Hr. apply filter_In in Hr as [_ Hr]. exact Hr.
Qed.

(** churn_analysis.py's high-value churn rate agrees with the dashboard's
    whenever some balance exceeds 100000, and is nan (where the dashboard
    shows 0) when none does. *)
Theorem script_hv_churn_vs_app (df : list customer) :
  (hv_rows (app_high_value df) <> [] ->
   script_hv_churn df = inr (Fin (hv_churn (app_high_value df)))) /\
  (df <> [] -> hv_rows (app_high_value df) = [] ->
   script_hv_churn df = inr NaN /\ hv_churn (app_high_value df) = 0%Q) /\
  script_hv_churn [] = inl ZeroDivisionError.
Proof.
  split; [|split; [|reflexivity]];
  [intro Hne | intros Hdf Hne];
  (destruct df as [|r df]; [first [exfalso; apply Hne; reflexivity | congruence]|]);
  change (script_hv_churn (r :: df)) with
    (@inr script_error num
      (num_mul (np_true_div
         (sum_exited (filter (fun r => Qlt_bool 100000 (Balance r)) (r :: df)))
         (Z.of_nat (length (filter (fun r => Qlt_bool 100000 (Balance r)) (r :: df))))) 100));
  change (hv_churn (app_high_value (r :: df))) with
    (guarded_rate (filter (fun r => Qlt_bool 100000 (Balance r)) (r :: df)));
  change (hv_rows (app_high_value (r :: df))) with
    (filter (fun r => Qlt_bool 100000 (Balance r)) (r :: df)) in *;
  destruct (filter (fun r => Qlt_bool 100000 (Balance r)) (r :: df)) as [|x hv'];
  try congruence; try (split; reflexivity); reflexivity.
Qed.

(** churn_analysis.py's activity step (lines 85-88) raises KeyError unless
    the frame has both an active ([IsActiveMember = 1]) and an inactive
    ([IsActiveMember = 0]) member. *)
Theorem script_activity_defined (df : list customer) :
  script_activity df <> None <->
  (exists r, In r df /\ IsActiveMember r = 1%Z) /\
  (exists r, In r df /\ IsActiveMember r = 0%Z).
Proof.
  unfold script_activity, group_mean_pct.
  rewrite !(series_get_map (fun k => let g := group_of activity_col df k in
       (inject_Z (sum_exited g) / inject_Z (Z.of_nat (length g)) * 100)%Q)).
  assert (Hk : forall k v, activity_status v = Some k ->
                 (k = "Active" /\ v = 1%Z) \/ (k = "Inactive" /\ v = 0%Z)).
  { intros k v. unfold activity_status.
    destruct (v =? 1)%Z eqn:E1; [apply Z.eqb_eq in E1; intro H; inversion H; auto|].
    destruct (v =? 0)%Z eqn:E0; [apply Z.eqb_eq in E0; intro H; inversion H; auto|].
    discriminate. }
  assert (Ha : In "Active" (group_keys activity_col df) <->
               exists r, In r df /\ IsActiveMember r = 1%Z).
  { rewrite in_group_keys. unfold activity_col. split.
    - intros [r [Hr H]]. exists r. split; [exact Hr|].
      destruct (Hk _ _ H) as [[_ ?]|[H' _]]; [assumption|discriminate].
    - intros [r [Hr H]]. exists r. split; [exact Hr|]. rewrite H. reflexivity. }
  assert (Hi : In "Inactive" (group_keys activity_col df) <->
               exists r, In r df /\ IsActiveMember r = 0%Z).
  { rewrite in_group_keys. unfold activity_col. split.
    - intros [r [Hr H]]. exists r. split; [exact Hr|].
      destruct (Hk _ _ H) as [[H' _]|[_ ?]]; [discriminate|assumption].
    - intros [r [Hr H]]. exists r. split; [exact Hr|]. rewrite H. reflexivity. }
  rewrite <- Ha, <- Hi.
  destruct (in_dec string_dec "Active" (group_keys activity_col df)),
           (in_dec string_dec "Inactive" (group_keys activity_col df));
  split; intro H; try discriminate; try tauto; congruence.
Qed.

(** churn_analysis.py line 106: [geo['Rate'].idxmax()] raises (ValueError)
    exactly on an empty frame; otherwise it names a country of the [geo]
    table whose churn rate is the highest of the table. *)
Theorem script_top_country_spec (df : list customer) :
  (script_top_country df = None <-> df = []) /\
  (forall k, script_top_country df = Some k ->
     exists a, In a (calc_churn (col_value ByGeography) df) /\ seg a = k /\
       forall b, In b (calc_churn (col_value ByGeography) df) ->
                 (ChurnRate b <= ChurnRate a)%Q).
Proof.
  unfold script_top_country. split.
  - split.
    + intro H. destruct df as [|r df]; [reflexivity|exfalso].
      assert (Hin : In (Geography r) (map seg (calc_churn (col_value ByGeography) (r :: df)))).
      { apply calc_churn_keys. exists r. split; [left|]; reflexivity. }
      destruct (calc_churn _ _); [contradiction|discriminate].
    + intros ->. reflexivity.
  - intros k Hk.
    destruct (calc_churn (col_value ByGeography) df) as [|a0 l] eqn:E; [discriminate|].
    simpl in Hk. injection Hk as <-.
    destruct (idxmax_from_spec (seg a0, ChurnRate a0)
                (map (fun a => (seg a, ChurnRate a)) l)) as [v [Hin [Hle Hall]]].
    change ((seg a0, ChurnRate a0) :: map (fun a => (seg a, ChurnRate a)) l)
      with (map (fun a => (seg a, ChurnRate a)) (a0 :: l)) in Hin.
    apply in_map_iff in Hin as [a [Ha Hal]]. injection Ha as Hs Hv.
    exists a. split; [exact Hal|]. split; [exact Hs|].
    intros b [<-|Hb]; rewrite Hv; [exact Hle|].
    apply (Hall (seg b, ChurnRate b)). apply in_map_iff. eauto.
Qed.

(** The balance segment of a negative balance is "Low (<50k)" (the [< 50000]
    branch catches it), while over non-negative balances the segment index
    never decreases as the balance grows. *)
Theorem balance_segment_order (b : Q) :
  ((b < 0)%Q -> balance_segment b = "Low (<50k)") /\
  (forall b', (0 <= b)%Q -> (b <= b')%Q ->
     balance_rank (balance_segment b) <= balance_rank (balance_segment b')).
Proof.
  split.
  - intro Hb. unfold balance_segment.
    destruct (Qeq_bool b 0) eqn:E0;
    [apply Qeq_bool_iff in E0; exfalso; qlia|].
    destruct (Qlt_bool b 50000) eqn:E1; [reflexivity|].
    apply Qlt_bool_false_iff in E1. exfalso. qlia.
  - intros b' H0 Hle.
    pose proof (fun t (H : (b' < t)%Q) => Qle_lt_trans _ _ _ Hle H) as L.
    pose proof (L 50000%Q) as L50. pose proof (L 100000%Q) as L100.
    pose proof (Qle_trans _ _ _ H0 Hle) as H0'.
    assert (L0 : (b' == 0 -> b == 0)%Q).
    { intro Hz. apply Qle_antisym; [|exact H0].
      eapply Qle_trans; [exact Hle|]. rewrite Hz. apply Qle_refl. }
    clear L Hle. unfold balance_segment.
    qcase (Qeq_bool b 0); qcase (Qlt_bool b 50000); qcase (Qlt_bool b 100000);
    qcase (Qeq_bool b' 0); qcase (Qlt_bool b' 50000); qcase (Qlt_bool b' 100000);
    cbn; first [lia | exfalso; qlia].
Qed.

(** Witnesses of the further properties. *)

Definition sample_frame : list customer :=
  [mkCustomer "France" "Female" 42 0 1 0;
   mkCustomer "Spain" "Male" 61 125000 0 1].

Lemma sidebar_options_nonempty_witness :
  sample_frame <> [] /\
  apply_filters "Spain" "All" "All" "All" sample_frame <> [].
Proof.
  assert (H : sample_frame <> []) by discriminate.
  split; [exact H|].
  apply (proj1 (sidebar_options_nonempty sample_frame H)).
  vm_compute. right. right. left. reflexivity.
Defined.

Lemma app_kpis_bounds_witness :
  Forall wt sample_frame /\ (0 <= kpi_churn_rate (app_kpis sample_frame) <= 100)%Q.
Proof.
  assert (H : Forall wt sample_frame).
  { constructor; [left; reflexivity|constructor; [right; reflexivity|constructor]]. }
  split; [exact H|].
  apply (app_kpis_bounds sample_frame H).
Defined.

Lemma geo_table_selected_country_witness :
  "Spain" <> "All" /\
  map seg (calc_churn (col_value ByGeography)
             (apply_filters "Spain" "All" "All" "All" sample_frame)) = ["Spain"].
Proof.
  assert (H : "Spain" <> "All") by discriminate.
  split; [exact H|].
  apply (geo_table_selected_country "Spain" sample_frame H).
Defined.

Lemma high_value_rates_bounds_witness :
  Forall wt sample_frame /\
  (0 <= hv_churn (high_value_split 100000 sample_frame) <= 100)%Q.
Proof.
  assert (H : Forall wt sample_frame).
  { constructor; [left; reflexivity|constructor; [right; reflexivity|constructor]]. }
  split; [exact H|].
  apply (proj1 (high_value_rates_bounds 100000 sample_frame H)).
Defined.

(** churn_analysis.py run from line 55 to line 94: an empty frame raises
    ZeroDivisionError at line 57; otherwise a frame with no active member
    raises KeyError('Active') at line 86, one with active but no inactive
    member raises KeyError('Inactive') at line 87, and a frame with both
    reaches line 94, whose result it returns. *)
Theorem script_run_outcome (df : list customer) :
  (df = [] -> script_run df = inl ZeroDivisionError) /\
  (df <> [] -> ~ (exists r, In r df /\ IsActiveMember r = 1%Z) ->
     script_run df = inl (KeyError "Active")) /\
  (df <> [] -> (exists r, In r df /\ IsActiveMember r = 1%Z) ->
     ~ (exists r, In r df /\ IsActiveMember r = 0%Z) ->
     script_run df = inl (KeyError "Inactive")) /\
  (df <> [] -> (exists r, In r df /\ IsActiveMember r = 1%Z) ->
     (exists r, In r df /\ IsActiveMember r = 0%Z) ->
     script_run df = script_hv_churn df).
Proof.
  pose proof (activity_lookup df "Active" 1 eq_refl) as Ha.
  pose proof (activity_lookup df "Inactive" 0 eq_refl) as Hi.
  unfold script_run.
  split; [intros ->; reflexivity|].
  destruct df as [|r0 df0] eqn:Edf;
  [split; [|split]; intros Hne; congruence|].
  change (script_overall (r0 :: df0)) with
    (@inr script_error Q (inject_Z (sum_exited (r0 :: df0)) /
       inject_Z (Z.of_nat (length (r0 :: df0))) * 100)%Q).
  cbv iota zeta.
  split; [|split].
  - intros _ Hna.
    destruct (series_get _ "Active") eqn:E; [|reflexivity].
    exfalso. apply Hna, Ha. congruence.
  - intros _ Hya Hni.
    destruct (series_get _ "Active") eqn:E;
    [|exfalso; apply (proj2 Ha) in Hya; congruence].
    destruct (series_get _ "Inactive") eqn:E'; [|reflexivity].
    exfalso. apply Hni, Hi. congruence.
  - intros _ Hya Hyi.
    destruct (series_get _ "Active") eqn:E;
    [|exfalso; apply (proj2 Ha) in Hya; congruence].
    destruct (series_get _ "Inactive") eqn:E';
    [reflexivity|exfalso; apply (proj2 Hi) in Hyi; congruence].
Qed.
